(** * Shallow embedding of cuda_deint_precise.cu (CUDA deinterlacer plugin)

    The device kernel [deintKernel], its host wrapper [runDeintKernel], the
    frame callback [cudaDeintGetFrame] and the constructor [cudaDeintCreate].

    Modelling conventions.
    - A plane buffer ([uint8_t*]) is a [list Z] of byte values; a load or a
      store at an offset outside the buffer is undefined behaviour in C and is
      modelled as failure ([None]), so a computation that returns [Some] made
      only in-bounds accesses.
    - Kernel-side [int] arithmetic (coordinates, accumulator) is computed in
      [Z]; the accumulator bound proved below (claim C7) shows that the 32-bit
      [int] never leaves its range.  Offsets [yy * stride + x] are [size_t]
      values below the buffer size, computed in [Z].
    - C integer division and remainder truncate toward zero: [Z.quot] and
      [Z.rem].
    - Host-side fixed-width conversions ([(int)] of an [int64_t], [*= 2] on
      [int] / [int64_t] fields) are two's-complement wrap-arounds, written out
      with [wrap_signed]. *)

From Stdlib Require Import String ZArith List Lia Bool.
Import ListNotations.
Open Scope Z_scope.

(* ------------------------------------------------------------------ *)
(** ** Machine helpers *)

(** Two's-complement reduction of [z] to a signed [bits]-bit integer. *)
Definition wrap_signed (bits : Z) (z : Z) : Z :=
  let m := 2 ^ bits in
  let r := z mod m in
  if r >=? 2 ^ (bits - 1) then r - m else r.

Definition to_int32 (z : Z) : Z := wrap_signed 32 z.
Definition to_int64 (z : Z) : Z := wrap_signed 64 z.

(** Conversion of an [int] to [uint8_t] on assignment to [dst[...]]. *)
Definition to_uint8 (z : Z) : Z := z mod 256.

(** C truthiness of an [int] flag. *)
Definition c_true (z : Z) : bool := negb (z =? 0).

(** [src[off]]: a load from a device buffer, failing out of bounds. *)
Definition load (buf : list Z) (off : Z) : option Z :=
  if (0 <=? off) && (off <? Z.of_nat (length buf))
  then nth_error buf (Z.to_nat off)
  else None.

(** Replace the [n]-th element of a list. *)
Fixpoint set_nth (l : list Z) (n : nat) (v : Z) : list Z :=
  match l, n with
  | [], _ => []
  | _ :: t, O => v :: t
  | h :: t, S k => h :: set_nth t k v
  end.

(** [dst[off] = v]: a store into a device buffer, failing out of bounds. *)
Definition store (buf : list Z) (off v : Z) : option (list Z) :=
  if (0 <=? off) && (off <? Z.of_nat (length buf))
  then Some (set_nth buf (Z.to_nat off) v)
  else None.

Definition obind {A B} (m : option A) (k : A -> option B) : option B :=
  match m with Some a => k a | None => None end.

Notation "x <- m ;; k" := (obind m (fun x => k))
  (at level 61, m at next level, right associativity).

(* ------------------------------------------------------------------ *)
(** ** [deintKernel]: the work of one thread *)

Section Kernel.

Variable src : list Z.          (* const uint8_t* src *)
Variables w h stride : Z.       (* int w, int h, size_t stride *)

(** The luma loop
    [for (int dy = -3; dy <= 3; dy += 2) { ... sum += src[yy*stride+x]*wgt;
    weight += wgt; }], run from a given [dy], [sum] and [weight]; [fuel]
    bounds the number of iterations (the loop makes four). *)
Fixpoint luma_loop (x y : Z) (fuel : nat) (dy sum weight : Z)
  : option (Z * Z) :=
  match fuel with
  | O => Some (sum, weight)
  | S f =>
      if dy <=? 3 then
        let yy := y + dy in
        let yy := if yy <? 0 then 0 else yy in
        let yy := if yy >=? h then h - 1 else yy in
        let wgt := if Z.abs dy =? 1 then 4 else 1 in
        v <- load src (yy * stride + x) ;;
        luma_loop x y f (dy + 2) (sum + v * wgt) (weight + wgt)
      else Some (sum, weight)
  end.

(** [bool missing = (useTop ? (y % 2 == 1) : (y % 2 == 0));] *)
Definition is_missing (useTop y : Z) : bool :=
  if c_true useTop then Z.rem y 2 =? 1 else Z.rem y 2 =? 0.

(** The [int] value a thread computes for pixel [(x, y)] before it is
    stored into the [uint8_t] destination. *)
Definition pixel_value (useTop isChroma x y : Z) : option Z :=
  if negb (is_missing useTop y) then
    load src (y * stride + x)
  else if negb (c_true isChroma) then
    sw <- luma_loop x y 4 (-3) 0 0 ;;
    let (sum, weight) := sw in
    Some (Z.quot (sum + Z.quot weight 2) weight)
  else
    let y0 := if y >? 0 then y - 1 else 0 in
    let y1 := if y + 1 <? h then y + 1 else h - 1 in
    v0 <- load src (y0 * stride + x) ;;
    v1 <- load src (y1 * stride + x) ;;
    Some (Z.quot (v0 + v1 + 1) 2).

(** One thread of [deintKernel]: [None] is a faulting access, [Some None]
    the early [return] of an out-of-range thread, [Some (Some (off, v))]
    the store [dst[off] = v]. *)
Definition deintKernel_thread (useTop isChroma x y : Z)
  : option (option (Z * Z)) :=
  if (x >=? w) || (y >=? h) then Some None
  else
    v <- pixel_value useTop isChroma x y ;;
    Some (Some (y * stride + x, to_uint8 v)).

End Kernel.

(* ------------------------------------------------------------------ *)
(** ** The kernel launch and [runDeintKernel] *)

(** [0, 1, ..., n-1] as integers. *)
Definition zrange (n : Z) : list Z := map Z.of_nat (seq 0 (Z.to_nat n)).

(** The threads of [deintKernel<<<blocks, threads>>>] with
    [dim3 threads(16, 16); dim3 blocks((w + 15) / 16, (h + 15) / 16);]:
    thread [(tx, ty)] of block [(bx, by)] has
    [x = bx * 16 + tx] and [y = by * 16 + ty]. *)
Definition grid_threads (w h : Z) : list (Z * Z) :=
  flat_map (fun byy =>
    flat_map (fun bx =>
      flat_map (fun ty =>
        map (fun tx => (bx * 16 + tx, byy * 16 + ty)) (zrange 16))
        (zrange 16))
      (zrange (Z.quot (w + 15) 16)))
    (zrange (Z.quot (h + 15) 16)).

(** Running one thread against the device destination buffer. *)
Definition run_thread (src : list Z) (w h stride useTop isChroma : Z)
    (acc : option (list Z)) (xy : Z * Z) : option (list Z) :=
  d <- acc ;;
  r <- deintKernel_thread src w h stride useTop isChroma (fst xy) (snd xy) ;;
  match r with
  | None => Some d
  | Some (off, v) => store d off v
  end.

(** The whole launch.  Threads are run one after the other; they read only
    [src] and store at pairwise distinct offsets, so the order is
    immaterial. *)
Definition deintKernel_launch (src dst : list Z) (w h stride useTop isChroma : Z)
  : option (list Z) :=
  fold_left (run_thread src w h stride useTop isChroma) (grid_threads w h)
    (Some dst).

(** [runDeintKernel]: [frame_size = stride * h] bytes of the host plane are
    copied to [d_src]; [d_dst] is fresh device memory whose contents
    ([uninit]) are unspecified; after the kernel, [frame_size] bytes of
    [d_dst] are copied back to the host destination plane, which is the
    result. *)
Definition runDeintKernel (sp : list Z) (w h stride useTop isChroma : Z)
    (uninit : list Z) : option (list Z) :=
  let frame_size := stride * h in
  let d_src := firstn (Z.to_nat frame_size) sp in
  let d_dst := firstn (Z.to_nat frame_size) uninit in
  deintKernel_launch d_src d_dst w h stride useTop isChroma.

(* ------------------------------------------------------------------ *)
(** ** Plugin data, [cudaDeintGetFrame] *)

(** The fields of [VSVideoInfo] the plugin uses. *)
Record VSVideoInfo := mkVideoInfo {
  numPlanes : Z;      (* format.numPlanes *)
  fpsNum : Z;         (* int64_t *)
  fpsDen : Z;         (* int64_t *)
  vi_width : Z;       (* int *)
  vi_height : Z;      (* int *)
  numFrames : Z       (* int *)
}.

(** One plane of a frame: geometry and bytes. *)
Record Plane := mkPlane {
  pl_width : Z;
  pl_height : Z;
  pl_stride : Z;
  pl_data : list Z
}.

Definition Frame := list Plane.

(** An upstream node: its video info and its frames by index. *)
Record VSNode := mkNode {
  node_vi : VSVideoInfo;
  node_frame : Z -> Frame
}.

Record CudaDeintData := mkData {
  node : VSNode;
  vi : VSVideoInfo;
  tff : Z;    (* 1 = Top field first, 0 = Bottom field first *)
  mode : Z    (* 0 = double-rate (bob), 1 = single-rate *)
}.

(** [int srcN = (d->mode == 0) ? n / 2 : n;] *)
Definition source_index (d : CudaDeintData) (n : Z) : Z :=
  if mode d =? 0 then Z.quot n 2 else n.

(** [bool useTop = (d->mode == 0) ? ((n % 2 == 0) == (d->tff == 1))
                                 : (d->tff == 1);] *)
Definition use_top (d : CudaDeintData) (n : Z) : bool :=
  if mode d =? 0 then Bool.eqb (Z.rem n 2 =? 0) (tff d =? 1)
  else tff d =? 1.

Definition b2z (b : bool) : Z := if b then 1 else 0.

Inductive ActivationReason := arInitial | arAllFramesReady | arError.

(** The frame [dst] the callback returns, allocated by
    [newVideoFrame(&d->vi.format, d->vi.width, d->vi.height, src, core)]:
    its plane [p] is given by the bytes the plane loop writes through
    [getWritePtr(dst, p)].  The geometry VapourSynth gives its planes from
    [d->vi] is not modelled. *)
Definition DstFrame := list (list Z).

(** What one activation of the callback does: request a source frame, or
    fetch one and return a new frame ([None] for a faulting kernel), or
    return [nullptr]. *)
Inductive GetFrameResult :=
  | Requested (srcN : Z)
  | Produced (srcN : Z) (dst : option DstFrame)
  | NoFrame.

(** The plane loop: [for (plane = 0; plane < numPlanes; plane++)
    runDeintKernel(sp, dp, w, h, stride, useTop, plane > 0)]; [uninit p]
    is the unspecified device memory used for plane [p]. *)
Fixpoint process_planes (src : Frame) (useTop : Z) (uninit : Z -> list Z)
    (plane : Z) (fuel : nat) : option DstFrame :=
  match fuel with
  | O => Some []
  | S f =>
      match nth_error src (Z.to_nat plane) with
      | None => None
      | Some p =>
          dp <- runDeintKernel (pl_data p) (pl_width p) (pl_height p)
                  (pl_stride p) useTop (b2z (plane >? 0)) (uninit plane) ;;
          rest <- process_planes src useTop uninit (plane + 1) f ;;
          Some (dp :: rest)
      end
  end.

Definition cudaDeintGetFrame (n : Z) (activationReason : ActivationReason)
    (d : CudaDeintData) (uninit : Z -> list Z) : GetFrameResult :=
  match activationReason with
  | arInitial => Requested (source_index d n)
  | arAllFramesReady =>
      let srcN := source_index d n in
      let src := node_frame (node d) srcN in
      let useTop := b2z (use_top d n) in
      Produced srcN
        (process_planes src useTop uninit 0 (Z.to_nat (numPlanes (vi d))))
  | arError => NoFrame
  end.

(* ------------------------------------------------------------------ *)
(** ** [cudaDeintCreate] *)

(** The argument map: ["clip"] (a node), ["tff"] and ["mode"] (int64), each
    possibly absent. *)
Record VSMapIn := mkMapIn {
  in_clip : option VSNode;
  in_tff : option Z;
  in_mode : option Z
}.

Inductive CreateResult :=
  | CreateError (msg : string)           (* vsapi->mapSetError(out, msg) *)
  | CreateFilter (name : string) (vi_out : VSVideoInfo) (d : CudaDeintData).

Definition cudaDeintCreate (inmap : VSMapIn) : CreateResult :=
  match in_clip inmap with
  | None => CreateError "CudaDeinterlacer: clip is required."
  | Some nd =>
      let vi0 := node_vi nd in
      let t := match in_tff inmap with Some v => to_int32 v | None => 1 end in
      let m := match in_mode inmap with Some v => to_int32 v | None => 0 end in
      let vi1 :=
        if m =? 0 then
          mkVideoInfo (numPlanes vi0) (to_int64 (fpsNum vi0 * 2)) (fpsDen vi0)
            (vi_width vi0) (vi_height vi0) (to_int32 (numFrames vi0 * 2))
        else vi0 in
      CreateFilter "CudaDeinterlacer" vi1 (mkData nd vi1 t m)
  end.

(* ------------------------------------------------------------------ *)
(** ** Reading a plane, as the specification states it *)

(** [src[y, x]], the sample at row [y] and column [x] of a plane. *)
Definition px (src : list Z) (stride x y : Z) : Z :=
  nth (Z.to_nat (y * stride + x)) src 0.

(** Every sample of a [uint8_t] buffer is a byte. *)
Definition bytes (l : list Z) : Prop := Forall (fun v => 0 <= v < 256) l.

(** A row index clamped to [[0, h - 1]]. *)
Definition clamp (h r : Z) : Z := Z.max 0 (Z.min r (h - 1)).

(* ------------------------------------------------------------------ *)
(** ** Lemmas on buffers *)

Lemma load_in (buf : list Z) (off : Z) :
  0 <= off < Z.of_nat (length buf) ->
  load buf off = Some (nth (Z.to_nat off) buf 0).
Proof.
  intros Hoff. unfold load.
  replace ((0 <=? off) && (off <? Z.of_nat (length buf))) with true
    by (symmetry; apply andb_true_intro; split; [apply Z.leb_le | apply Z.ltb_lt]; lia).
  apply nth_error_nth'. lia.
Qed.

Lemma set_nth_length (l : list Z) (n : nat) (v : Z) :
  length (set_nth l n v) = length l.
Proof.
  revert n; induction l as [|a t IH]; intros [|k]; simpl; auto.
Qed.

Lemma nth_set_nth_same (l : list Z) (n : nat) (v : Z) :
  (n < length l)%nat -> nth n (set_nth l n v) 0 = v.
Proof.
  revert n; induction l as [|a t IH]; intros [|k] Hk; simpl in *; try lia; auto.
  apply IH. lia.
Qed.

Lemma nth_set_nth_other (l : list Z) (n m : nat) (v : Z) :
  n <> m -> nth m (set_nth l n v) 0 = nth m l 0.
Proof.
  revert n m; induction l as [|a t IH]; intros [|k] [|j] Hne; simpl; auto; try lia.
Qed.

Lemma bytes_nth (l : list Z) (n : nat) : bytes l -> 0 <= nth n l 0 < 256.
Proof.
  intros Hb. destruct (Nat.lt_ge_cases n (length l)) as [Hn | Hn].
  - exact (proj1 (Forall_forall _ l) Hb _ (nth_In l 0 Hn)).
  - rewrite nth_overflow by exact Hn. lia.
Qed.

Lemma to_uint8_byte (v : Z) : 0 <= v < 256 -> to_uint8 v = v.
Proof. intros. unfold to_uint8. apply Z.mod_small. exact H. Qed.

(** The code's clamp ([if (yy < 0) yy = 0; if (yy >= h) yy = h - 1;]) is
    [clamp] on a non-empty plane. *)
Lemma code_clamp (h r : Z) :
  1 <= h ->
  (let yy := if r <? 0 then 0 else r in if yy >=? h then h - 1 else yy)
  = clamp h r.
Proof.
  intros Hh. unfold clamp. cbv zeta.
  destruct (Z.ltb_spec r 0); [destruct (Z.geb_spec 0 h) | destruct (Z.geb_spec r h)]; lia.
Qed.

Lemma clamp_range (h r : Z) : 1 <= h -> 0 <= clamp h r < h.
Proof. unfold clamp. lia. Qed.

(** A sample of row [yy] in [[0, h)] lies inside a buffer of
    [stride * h] bytes. *)
Lemma offset_in (stride h x yy : Z) :
  0 <= x < stride -> 0 <= yy < h ->
  0 <= yy * stride + x < stride * h.
Proof. intros. nia. Qed.

(** Distinct pixels of a plane have distinct offsets. *)
Lemma offset_inj (stride x y x' y' : Z) :
  0 <= x < stride -> 0 <= x' < stride ->
  y * stride + x = y' * stride + x' -> y = y' /\ x = x'.
Proof.
  intros Hx Hx' E.
  destruct (Z.lt_total y y') as [Hy | [Hy | Hy]].
  - exfalso. nia.
  - subst. lia.
  - exfalso. nia.
Qed.

(* ------------------------------------------------------------------ *)
(** ** One thread on a well-formed plane *)

(** The 4-tap luma sum as the specification states it: offsets [+-1] with
    weight 4, offsets [+-3] with weight 1, each row clamped on its own. *)
Definition luma_taps (src : list Z) (h stride x y : Z) : Z :=
  4 * px src stride x (clamp h (y - 1)) + 4 * px src stride x (clamp h (y + 1))
  + px src stride x (clamp h (y - 3)) + px src stride x (clamp h (y + 3)).

Lemma code_clamp' (h r : Z) :
  1 <= h ->
  (if (if r <? 0 then 0 else r) >=? h then h - 1 else (if r <? 0 then 0 else r))
  = clamp h r.
Proof. intros Hh. exact (code_clamp h r Hh). Qed.

Lemma in_zrange (n z : Z) : In z (zrange n) <-> 0 <= z < n.
Proof.
  unfold zrange. rewrite in_map_iff. split.
  - intros [k [<- Hk]]. apply in_seq in Hk. lia.
  - intros Hz. exists (Z.to_nat z). rewrite in_seq. split; lia.
Qed.

(** The launch covers every pixel of the plane ... *)
Lemma grid_covers (w h x y : Z) :
  0 <= x < w -> 0 <= y < h -> In (x, y) (grid_threads w h).
Proof.
  intros Hx Hy. unfold grid_threads.
  rewrite !Z.quot_div_nonneg by lia.
  apply in_flat_map. exists (y / 16).
  split; [apply in_zrange; Z.to_euclidean_division_equations; lia|].
  apply in_flat_map. exists (x / 16).
  split; [apply in_zrange; Z.to_euclidean_division_equations; lia|].
  apply in_flat_map. exists (y mod 16).
  split; [apply in_zrange; Z.to_euclidean_division_equations; lia|].
  apply in_map_iff. exists (x mod 16).
  split; [|apply in_zrange; Z.to_euclidean_division_equations; lia].
  f_equal; Z.to_euclidean_division_equations; lia.
Qed.

(** ... and only non-negative coordinates. *)
Lemma grid_nonneg (w h x y : Z) :
  In (x, y) (grid_threads w h) -> 0 <= x /\ 0 <= y.
Proof.
  unfold grid_threads. intros Hin.
  apply in_flat_map in Hin as [byy [Hby Hin]].
  apply in_flat_map in Hin as [bx [Hbx Hin]].
  apply in_flat_map in Hin as [ty [Hty Hin]].
  apply in_map_iff in Hin as [tx [E Htx]].
  apply in_zrange in Hby, Hbx, Hty, Htx. injection E as <- <-. lia.
Qed.

Section Plane.

Variable src : list Z.
Variables w h stride : Z.
Hypothesis Hw : 0 <= w <= stride.
Hypothesis Hlen : Z.of_nat (length src) = stride * h.

Lemma load_px (x yy : Z) :
  0 <= x < w -> 0 <= yy < h ->
  load src (yy * stride + x) = Some (px src stride x yy).
Proof.
  intros Hx Hy. unfold px. apply load_in.
  pose proof (offset_in stride h x yy ltac:(lia) Hy). lia.
Qed.

Lemma load_clamped (x r : Z) :
  0 <= x < w -> 1 <= h ->
  load src (clamp h r * stride + x) = Some (px src stride x (clamp h r)).
Proof.
  intros Hx Hh. apply load_px; [exact Hx | apply clamp_range; exact Hh].
Qed.

(** After [k] iterations the luma loop has added the first [k] taps. *)
Lemma luma_loop_eq (x y : Z) :
  0 <= x < w -> 0 <= y < h ->
  luma_loop src h stride x y 4 (-3) 0 0
  = Some (0 + px src stride x (clamp h (y + -3)) * 1
            + px src stride x (clamp h (y + -1)) * 4
            + px src stride x (clamp h (y + 1)) * 4
            + px src stride x (clamp h (y + 3)) * 1, 10).
Proof.
  intros Hx Hy. cbn [luma_loop].
  cbv [obind]. simpl (_ <=? _). simpl (Z.abs _ =? _). simpl (_ + _)%Z.
  rewrite !code_clamp' by lia.
  rewrite !load_clamped by lia.
  reflexivity.
Qed.

Lemma px_byte (x y : Z) : bytes src -> 0 <= px src stride x y < 256.
Proof. intros Hb. unfold px. apply bytes_nth. exact Hb. Qed.

Lemma pixel_value_present (useTop isChroma x y : Z) :
  0 <= x < w -> 0 <= y < h -> is_missing useTop y = false ->
  pixel_value src h stride useTop isChroma x y = Some (px src stride x y).
Proof.
  intros Hx Hy Hm. unfold pixel_value. rewrite Hm. simpl.
  apply load_px; assumption.
Qed.

Lemma pixel_value_luma (useTop isChroma x y : Z) :
  0 <= x < w -> 0 <= y < h -> is_missing useTop y = true ->
  c_true isChroma = false ->
  pixel_value src h stride useTop isChroma x y
  = Some (Z.quot (luma_taps src h stride x y + 5) 10).
Proof.
  intros Hx Hy Hm Hc. unfold pixel_value. rewrite Hm, Hc. simpl negb.
  cbv iota. rewrite (luma_loop_eq x y Hx Hy). simpl obind.
  unfold luma_taps.
  replace (y + -3) with (y - 3) by lia. replace (y + -1) with (y - 1) by lia.
  f_equal. f_equal. change (10 ÷ 2) with 5. lia.
Qed.

Lemma pixel_value_chroma (useTop isChroma x y : Z) :
  0 <= x < w -> 0 <= y < h -> is_missing useTop y = true ->
  c_true isChroma = true ->
  pixel_value src h stride useTop isChroma x y
  = Some (Z.quot (px src stride x (Z.max (y - 1) 0)
                  + px src stride x (Z.min (y + 1) (h - 1)) + 1) 2).
Proof.
  intros Hx Hy Hm Hc. unfold pixel_value. rewrite Hm, Hc. simpl negb.
  cbv iota.
  replace (if y >? 0 then y - 1 else 0) with (Z.max (y - 1) 0)
    by (destruct (Z.gtb_spec y 0); lia).
  replace (if y + 1 <? h then y + 1 else h - 1) with (Z.min (y + 1) (h - 1))
    by (destruct (Z.ltb_spec (y + 1) h); lia).
  rewrite !load_px by lia. reflexivity.
Qed.

(** Every in-range thread computes a value, i.e. performs only in-bounds
    loads. *)
Lemma pixel_value_some (useTop isChroma x y : Z) :
  0 <= x < w -> 0 <= y < h ->
  exists v, pixel_value src h stride useTop isChroma x y = Some v.
Proof.
  intros Hx Hy.
  destruct (is_missing useTop y) eqn:Hm.
  - destruct (c_true isChroma) eqn:Hc.
    + eexists. apply pixel_value_chroma; assumption.
    + eexists. apply pixel_value_luma; assumption.
  - eexists. apply pixel_value_present; assumption.
Qed.

(** The shape of one thread: out-of-range threads return before any access;
    in-range threads store at [y * stride + x] inside the buffer. *)
Lemma thread_shape (useTop isChroma x y : Z) :
  0 <= x -> 0 <= y ->
  (x >= w \/ y >= h ->
     deintKernel_thread src w h stride useTop isChroma x y = Some None) /\
  (x < w -> y < h ->
     exists v, pixel_value src h stride useTop isChroma x y = Some v /\
     deintKernel_thread src w h stride useTop isChroma x y
       = Some (Some (y * stride + x, to_uint8 v)) /\
     0 <= y * stride + x < stride * h).
Proof.
  intros Hx0 Hy0. split.
  - intros Hout. unfold deintKernel_thread.
    destruct (Z.geb_spec x w); destruct (Z.geb_spec y h); simpl; try reflexivity.
    lia.
  - intros Hx Hy.
    destruct (pixel_value_some useTop isChroma x y ltac:(lia) ltac:(lia))
      as [v Hv].
    exists v. split; [exact Hv|]. split.
    + unfold deintKernel_thread.
      destruct (Z.geb_spec x w); destruct (Z.geb_spec y h); try lia.
      simpl. rewrite Hv. reflexivity.
    + apply offset_in; lia.
Qed.

(** Whether a thread's outcome is a store at offset [o]. *)
Definition writes_at (r : option (option (Z * Z))) (o : Z) : bool :=
  match r with Some (Some (o', _)) => o' =? o | _ => false end.

Section Launch.

Variables (useTop isChroma : Z).

Let T (xy : Z * Z) := deintKernel_thread src w h stride useTop isChroma (fst xy) (snd xy).
Let run := run_thread src w h stride useTop isChroma.

(** Running a list of threads whose stores stay inside the buffer: a
    position nobody stores to keeps its contents, and a position all of whose
    writers store the same value ends up holding it. *)
Lemma fold_run (L : list (Z * Z)) (d : list Z) :
  (forall xy, In xy L -> exists r, T xy = Some r /\
     forall o v, r = Some (o, v) -> 0 <= o < Z.of_nat (length d)) ->
  exists d', fold_left run L (Some d) = Some d' /\ length d' = length d /\
   (forall o, 0 <= o -> (forall xy v, In xy L -> T xy <> Some (Some (o, v))) ->
      nth (Z.to_nat o) d' 0 = nth (Z.to_nat o) d 0) /\
   (forall o v, (exists xy, In xy L /\ T xy = Some (Some (o, v))) ->
      (forall xy v', In xy L -> T xy = Some (Some (o, v')) -> v' = v) ->
      nth (Z.to_nat o) d' 0 = v).
Proof.
  revert d. induction L as [|a L IH]; intros d HL.
  - exists d. simpl. repeat split; auto.
    intros o v [xy [[] _]].
  - destruct (HL a (or_introl eq_refl)) as [r [Ha Hr]].
    assert (HL' : forall d1 : list Z, length d1 = length d ->
              forall xy, In xy L -> exists r, T xy = Some r /\
              forall o v, r = Some (o, v) -> 0 <= o < Z.of_nat (length d1)).
    { intros d1 E xy Hin. rewrite E. apply HL. right. exact Hin. }
    destruct r as [[o1 v1]|].
    + pose proof (Hr o1 v1 eq_refl) as Ho1.
      set (d1 := set_nth d (Z.to_nat o1) v1).
      assert (E1 : length d1 = length d) by apply set_nth_length.
      destruct (IH d1 (HL' d1 E1)) as [d' [Hf [Hl [Hun Hwr]]]].
      exists d'.
      change (fold_left run (a :: L) (Some d)) with (fold_left run L (run (Some d) a)).
      assert (Hstep : run (Some d) a = Some d1).
      { unfold run, run_thread. simpl obind. fold (T a). rewrite Ha. simpl.
        unfold store.
        replace ((0 <=? o1) && (o1 <? Z.of_nat (length d))) with true
          by (symmetry; apply andb_true_intro;
              split; [apply Z.leb_le | apply Z.ltb_lt]; lia).
        reflexivity. }
      rewrite Hstep. split; [exact Hf|]. split; [lia|]. split.
      * intros o Ho Hno. rewrite Hun.
        -- unfold d1. apply nth_set_nth_other.
           intros E. assert (o = o1) by lia. subst o.
           exact (Hno a v1 (or_introl eq_refl) Ha).
        -- exact Ho.
        -- intros xy v Hin. apply Hno. right. exact Hin.
      * intros o v [xy [Hin Hxy]] Hagree.
        destruct (existsb (fun xy => writes_at (T xy) o) L) eqn:Hex.
        -- apply existsb_exists in Hex. destruct Hex as [xy' [Hin' Hw']].
           unfold writes_at in Hw'.
           destruct (T xy') as [[[o' v']|]|] eqn:HT; try discriminate.
           apply Z.eqb_eq in Hw'. subst o'.
           apply Hwr.
           ++ exists xy'. split; [exact Hin'|].
              rewrite HT. f_equal. f_equal. f_equal.
              apply (Hagree xy' v'); [right; exact Hin' | exact HT].
           ++ intros xy2 v2 Hin2. apply Hagree. right. exact Hin2.
        -- assert (Hnone : forall xy v, In xy L -> T xy <> Some (Some (o, v))).
           { intros xy2 v2 Hin2 HT2.
             assert (Hf2 : existsb (fun xy => writes_at (T xy) o) L = true).
             { apply existsb_exists. exists xy2. split; [exact Hin2|].
               rewrite HT2. simpl. apply Z.eqb_refl. }
             congruence. }
           destruct Hin as [<- | Hin].
           ++ rewrite Ha in Hxy. injection Hxy as <- <-.
              rewrite (Hun o1 ltac:(lia) Hnone).
              unfold d1. apply nth_set_nth_same. lia.
           ++ exfalso. exact (Hnone xy v Hin Hxy).
    + destruct (IH d (HL' d eq_refl)) as [d' [Hf [Hl [Hun Hwr]]]].
      exists d'.
      change (fold_left run (a :: L) (Some d)) with (fold_left run L (run (Some d) a)).
      assert (Hstep : run (Some d) a = Some d).
      { unfold run, run_thread. simpl obind. fold (T a). rewrite Ha.
        reflexivity. }
      rewrite Hstep. split; [exact Hf|]. split; [exact Hl|]. split.
      * intros o Ho Hno. apply Hun; [exact Ho|].
        intros xy v Hin. apply Hno. right. exact Hin.
      * intros o v [xy [Hin Hxy]] Hagree.
        destruct Hin as [<- | Hin]; [congruence|].
        apply Hwr.
        -- exists xy. split; assumption.
        -- intros xy2 v2 Hin2. apply Hagree. right. exact Hin2.
Qed.

(** The launch over a plane of [stride * h] bytes with [w <= stride]: no
    thread faults, and every pixel [(x, y)] of the plane ends up holding the
    value its thread computed, converted to [uint8_t]. *)
Lemma launch_spec (dst : list Z) :
  length dst = length src ->
  exists d', deintKernel_launch src dst w h stride useTop isChroma = Some d' /\
    length d' = length dst /\
    forall x y v, 0 <= x < w -> 0 <= y < h ->
      pixel_value src h stride useTop isChroma x y = Some v ->
      nth (Z.to_nat (y * stride + x)) d' 0 = to_uint8 v.
Proof.
  intros Hd. unfold deintKernel_launch.
  destruct (fold_run (grid_threads w h) dst) as [d' [Hf [Hl [_ Hwr]]]].
  { intros [x y] Hin. destruct (grid_nonneg w h x y Hin) as [Hx0 Hy0].
    destruct (thread_shape useTop isChroma x y Hx0 Hy0) as [Hout Hinr].
    destruct (Z_lt_ge_dec x w) as [Hx|Hx]; [destruct (Z_lt_ge_dec y h) as [Hy|Hy]|].
    - destruct (Hinr Hx Hy) as [v [_ [HT Hr]]].
      eexists. split; [exact HT|]. intros o v' E. injection E as <- _. lia.
    - eexists. split; [exact (Hout (or_intror Hy))|]. discriminate.
    - eexists. split; [exact (Hout (or_introl Hx))|]. discriminate. }
  exists d'. split; [exact Hf|]. split; [exact Hl|].
  intros x y v Hx Hy Hv.
  destruct (thread_shape useTop isChroma x y ltac:(lia) ltac:(lia)) as [_ Hinr].
  destruct (Hinr ltac:(lia) ltac:(lia)) as [v0 [Hv0 [HT _]]].
  rewrite Hv in Hv0. injection Hv0 as <-.
  apply Hwr.
  - exists (x, y). split; [apply grid_covers; lia | exact HT].
  - intros [x' y'] v' Hin HT'. cbv [T fst snd] in HT'.
    destruct (grid_nonneg w h x' y' Hin) as [Hx0 Hy0].
    destruct (thread_shape useTop isChroma x' y' Hx0 Hy0) as [Hout Hinr'].
    destruct (Z_lt_ge_dec x' w) as [Hx'|Hx']; [destruct (Z_lt_ge_dec y' h) as [Hy'|Hy']|].
    + destruct (Hinr' Hx' Hy') as [v1 [Hv1 [HT1 _]]].
      rewrite HT1 in HT'. injection HT' as Eo Ev. 
      destruct (offset_inj stride x' y' x y ltac:(lia) ltac:(lia) Eo) as [-> ->].
      rewrite Hv in Hv1. injection Hv1 as <-. symmetry. exact Ev.
    + rewrite (Hout (or_intror Hy')) in HT'. discriminate.
    + rewrite (Hout (or_introl Hx')) in HT'. discriminate.
Qed.

(** No thread stores at a padding position: an offset whose column
    [o mod stride] lies at or beyond [w]. *)
Lemma launch_padding (dst : list Z) :
  length dst = length src ->
  exists d', deintKernel_launch src dst w h stride useTop isChroma = Some d' /\
    forall o, 0 <= o -> w <= o mod stride ->
      nth (Z.to_nat o) d' 0 = nth (Z.to_nat o) dst 0.
Proof.
  intros Hd. unfold deintKernel_launch.
  destruct (fold_run (grid_threads w h) dst) as [d' [Hf [_ [Hun _]]]].
  { intros [x y] Hin. destruct (grid_nonneg w h x y Hin) as [Hx0 Hy0].
    destruct (thread_shape useTop isChroma x y Hx0 Hy0) as [Hout Hinr].
    destruct (Z_lt_ge_dec x w) as [Hx|Hx]; [destruct (Z_lt_ge_dec y h) as [Hy|Hy]|].
    - destruct (Hinr Hx Hy) as [v [_ [HT Hr]]].
      eexists. split; [exact HT|]. intros o v' E. injection E as <- _. lia.
    - eexists. split; [exact (Hout (or_intror Hy))|]. discriminate.
    - eexists. split; [exact (Hout (or_introl Hx))|]. discriminate. }
  exists d'. split; [exact Hf|].
  intros o Ho Hpad. apply Hun; [exact Ho|].
  intros [x y] v Hin HT. cbv [T fst snd] in HT.
  destruct (grid_nonneg w h x y Hin) as [Hx0 Hy0].
  destruct (thread_shape useTop isChroma x y Hx0 Hy0) as [Hout Hinr].
  destruct (Z_lt_ge_dec x w) as [Hx|Hx]; [destruct (Z_lt_ge_dec y h) as [Hy|Hy]|].
  - destruct (Hinr Hx Hy) as [v1 [_ [HT1 _]]].
    rewrite HT1 in HT. injection HT as Eo _.
    assert (Hmod : o mod stride = x).
    { rewrite <- Eo. rewrite Z.add_comm, Z.mod_add by lia. apply Z.mod_small. lia. }
    lia.
  - rewrite (Hout (or_intror Hy)) in HT. discriminate.
  - rewrite (Hout (or_introl Hx)) in HT. discriminate.
Qed.

End Launch.

End Plane.

(* ------------------------------------------------------------------ *)
(** ** Bounds used by the kernel claims *)

Ltac byte_bounds src stride :=
  repeat match goal with
  | |- context [px src stride ?x ?y] =>
      lazymatch goal with
      | _ : 0 <= px src stride x y < 256 |- _ => fail
      | _ => assert (0 <= px src stride x y < 256) by (unfold px; apply bytes_nth; assumption)
      end
  end.

Lemma luma_taps_range (src : list Z) (h stride x y : Z) :
  bytes src -> 0 <= luma_taps src h stride x y <= 2550.
Proof.
  intros Hb. unfold luma_taps. byte_bounds src stride. lia.
Qed.

(** After any number [k] of iterations, the luma accumulator [sum] lies in
    [[0, 2550]] and [weight] in [[0, 10]]. *)
Lemma luma_loop_prefix (src : list Z) (w h stride x y : Z) (k : nat) :
  0 <= w <= stride -> Z.of_nat (length src) = stride * h -> bytes src ->
  0 <= x < w -> 0 <= y < h ->
  exists sum weight, luma_loop src h stride x y k (-3) 0 0 = Some (sum, weight) /\
    0 <= sum <= 2550 /\ 0 <= weight <= 10.
Proof.
  intros Hw Hlen Hb Hx Hy.
  destruct k as [|[|[|[|[|k]]]]]; cbn [luma_loop]; cbv [obind];
    simpl (_ <=? _); simpl (Z.abs _ =? _); simpl (_ + _)%Z;
    rewrite ?code_clamp' by lia; rewrite ?(load_clamped src w h stride Hw Hlen) by lia;
    try (destruct k; simpl (_ <=? _));
    (eexists _, _; split; [reflexivity|]); byte_bounds src stride; lia.
Qed.

(* ------------------------------------------------------------------ *)
(** ** Claims on the interpolation kernel *)

(** C2: luma reconstruction.  For every missing row [y] of a luma plane
    ([isChroma == 0]) and every column [x < w], the kernel leaves
    [dst[y, x] = (sum + 5) / 10], where [sum] weighs the rows at offsets
    [-1, +1] by 4 and [-3, +3] by 1, each row index clamped on its own to
    [[0, h - 1]]; clamped duplicates count at full weight and the divisor is
    always 10. *)
Theorem luma_missing_row (src dst : list Z) (w h stride useTop x y : Z) :
  0 <= w <= stride -> Z.of_nat (length src) = stride * h ->
  length dst = length src -> bytes src ->
  0 <= x < w -> 0 <= y < h -> is_missing useTop y = true ->
  exists d', deintKernel_launch src dst w h stride useTop 0 = Some d' /\
    nth (Z.to_nat (y * stride + x)) d' 0
    = (4 * px src stride x (clamp h (y - 1)) + 4 * px src stride x (clamp h (y + 1))
       + px src stride x (clamp h (y - 3)) + px src stride x (clamp h (y + 3))
       + 5) / 10.
Proof.
  intros Hw Hlen Hd Hb Hx Hy Hm.
  destruct (launch_spec src w h stride Hw Hlen useTop 0 dst Hd) as [d' [Hl [_ Hpix]]].
  exists d'. split; [exact Hl|].
  rewrite (Hpix x y _ Hx Hy (pixel_value_luma src w h stride Hw Hlen useTop 0 x y Hx Hy Hm eq_refl)).
  pose proof (luma_taps_range src h stride x y Hb) as Hr. unfold luma_taps in Hr |- *.
  rewrite Z.quot_div_nonneg by lia.
  apply to_uint8_byte. split.
  - apply Z.div_pos; lia.
  - apply Z.div_lt_upper_bound; lia.
Qed.

(** C4: present rows are copied byte-exact: for every row [y] that is not
    missing and every column [x < w], [dst[y, x] = src[y, x]]. *)
Theorem present_row_copied (src dst : list Z) (w h stride useTop isChroma x y : Z) :
  0 <= w <= stride -> Z.of_nat (length src) = stride * h ->
  length dst = length src -> bytes src ->
  0 <= x < w -> 0 <= y < h -> is_missing useTop y = false ->
  exists d', deintKernel_launch src dst w h stride useTop isChroma = Some d' /\
    nth (Z.to_nat (y * stride + x)) d' 0 = px src stride x y.
Proof.
  intros Hw Hlen Hd Hb Hx Hy Hm.
  destruct (launch_spec src w h stride Hw Hlen useTop isChroma dst Hd) as [d' [Hl [_ Hpix]]].
  exists d'. split; [exact Hl|].
  rewrite (Hpix x y _ Hx Hy (pixel_value_present src w h stride Hw Hlen useTop isChroma x y Hx Hy Hm)).
  apply to_uint8_byte. unfold px. apply bytes_nth. exact Hb.
Qed.

(** C5: chroma reconstruction.  For every missing row [y] of a chroma plane
    ([isChroma != 0]) and every column [x < w], the kernel leaves
    [dst[y, x] = (v0 + v1 + 1) / 2] with [v0 = src[max(y - 1, 0), x]] and
    [v1 = src[min(y + 1, h - 1), x]]. *)
Theorem chroma_missing_row (src dst : list Z) (w h stride useTop isChroma x y : Z) :
  0 <= w <= stride -> Z.of_nat (length src) = stride * h ->
  length dst = length src -> bytes src -> isChroma <> 0 ->
  0 <= x < w -> 0 <= y < h -> is_missing useTop y = true ->
  exists d', deintKernel_launch src dst w h stride useTop isChroma = Some d' /\
    nth (Z.to_nat (y * stride + x)) d' 0
    = (px src stride x (Z.max (y - 1) 0) + px src stride x (Z.min (y + 1) (h - 1)) + 1) / 2.
Proof.
  intros Hw Hlen Hd Hb Hc Hx Hy Hm.
  assert (Hct : c_true isChroma = true).
  { unfold c_true. apply negb_true_iff. apply Z.eqb_neq. exact Hc. }
  destruct (launch_spec src w h stride Hw Hlen useTop isChroma dst Hd) as [d' [Hl [_ Hpix]]].
  exists d'. split; [exact Hl|].
  rewrite (Hpix x y _ Hx Hy (pixel_value_chroma src w h stride Hw Hlen useTop isChroma x y Hx Hy Hm Hct)).
  byte_bounds src stride.
  rewrite Z.quot_div_nonneg by lia.
  apply to_uint8_byte. split.
  - apply Z.div_pos; lia.
  - apply Z.div_lt_upper_bound; lia.
Qed.

(** C6: memory safety.  With [w <= stride] and a source buffer of
    [stride * h] bytes, a thread whose pixel lies outside the plane returns
    before any access; a thread for [0 <= x < w], [0 <= y < h] makes only
    in-bounds loads (a load outside the buffer would make it fail) and stores
    at [y * stride + x], inside [[0, stride * h)]; and the whole launch runs
    without a faulting access, also when it reconstructs row [0] or row
    [h - 1]. *)
Theorem kernel_accesses_in_bounds (src dst : list Z) (w h stride useTop isChroma : Z) :
  0 <= w <= stride -> Z.of_nat (length src) = stride * h ->
  length dst = length src ->
  (forall x y, 0 <= x -> 0 <= y -> (x >= w \/ y >= h) ->
     deintKernel_thread src w h stride useTop isChroma x y = Some None) /\
  (forall x y, 0 <= x < w -> 0 <= y < h ->
     exists o v, deintKernel_thread src w h stride useTop isChroma x y = Some (Some (o, v)) /\
       o = y * stride + x /\ 0 <= o < stride * h) /\
  (exists d', deintKernel_launch src dst w h stride useTop isChroma = Some d').
Proof.
  intros Hw Hlen Hd. split; [|split].
  - intros x y Hx Hy Hout.
    exact (proj1 (thread_shape src w h stride Hw Hlen useTop isChroma x y Hx Hy) Hout).
  - intros x y Hx Hy.
    destruct (proj2 (thread_shape src w h stride Hw Hlen useTop isChroma x y
                      ltac:(lia) ltac:(lia)) ltac:(lia) ltac:(lia))
      as [v [_ [HT Hr]]].
    exists (y * stride + x), (to_uint8 v). split; [exact HT|]. split; [reflexivity|exact Hr].
  - destruct (launch_spec src w h stride Hw Hlen useTop isChroma dst Hd) as [d' [Hl _]].
    exists d'. exact Hl.
Qed.

(** C7: arithmetic range.  With byte samples, the luma accumulator stays in
    [[0, 2550]] after every iteration, so [sum + weight / 2 <= 2555] fits a
    32-bit [int]; and the value a thread computes (luma, chroma or copy) lies
    in [[0, 255]], so its conversion to [uint8_t] keeps it unchanged. *)
Theorem kernel_arith_bounds (src : list Z) (w h stride useTop isChroma x y : Z) :
  0 <= w <= stride -> Z.of_nat (length src) = stride * h -> bytes src ->
  0 <= x < w -> 0 <= y < h ->
  (forall k, exists sum weight,
     luma_loop src h stride x y k (-3) 0 0 = Some (sum, weight) /\
     0 <= sum <= 2550 /\ 0 <= weight <= 10) /\
  (exists sum, luma_loop src h stride x y 4 (-3) 0 0 = Some (sum, 10) /\
     0 <= sum + Z.quot 10 2 <= 2555 /\ 2555 <= 2 ^ 31 - 1) /\
  (exists v, pixel_value src h stride useTop isChroma x y = Some v /\
     0 <= v <= 255 /\ to_uint8 v = v).
Proof.
  intros Hw Hlen Hb Hx Hy. split; [|split].
  - intros k. exact (luma_loop_prefix src w h stride x y k Hw Hlen Hb Hx Hy).
  - rewrite (luma_loop_eq src w h stride Hw Hlen x y Hx Hy).
    eexists. split; [reflexivity|]. change (Z.quot 10 2) with 5.
    byte_bounds src stride. lia.
  - assert (Hv : exists v, pixel_value src h stride useTop isChroma x y = Some v /\
                           0 <= v <= 255).
    { destruct (is_missing useTop y) eqn:Hm.
      - destruct (c_true isChroma) eqn:Hc.
        + rewrite (pixel_value_chroma src w h stride Hw Hlen useTop isChroma x y Hx Hy Hm Hc).
          eexists. split; [reflexivity|]. byte_bounds src stride.
          rewrite Z.quot_div_nonneg by lia. split.
          * apply Z.div_pos; lia.
          * apply Z.lt_succ_r, Z.div_lt_upper_bound; lia.
        + rewrite (pixel_value_luma src w h stride Hw Hlen useTop isChroma x y Hx Hy Hm Hc).
          eexists. split; [reflexivity|].
          pose proof (luma_taps_range src h stride x y Hb).
          rewrite Z.quot_div_nonneg by lia. split.
          * apply Z.div_pos; lia.
          * apply Z.lt_succ_r, Z.div_lt_upper_bound; lia.
      - rewrite (pixel_value_present src w h stride Hw Hlen useTop isChroma x y Hx Hy Hm).
        eexists. split; [reflexivity|]. byte_bounds src stride. lia. }
    destruct Hv as [v [Hv Hr]]. exists v. split; [exact Hv|]. split; [exact Hr|].
    apply to_uint8_byte. lia.
Qed.

(* ------------------------------------------------------------------ *)
(** ** Lemmas on the resolver *)

Lemma rem2_odd (y : Z) : 0 <= y -> (Z.rem y 2 =? 1) = Z.odd y.
Proof.
  intros Hy. rewrite Z.rem_mod_nonneg by lia. rewrite Zmod_odd.
  destruct (Z.odd y); reflexivity.
Qed.

Lemma rem2_even (y : Z) : 0 <= y -> (Z.rem y 2 =? 0) = Z.even y.
Proof.
  intros Hy. rewrite Z.rem_mod_nonneg by lia. rewrite Zmod_odd, <- Z.negb_odd.
  destruct (Z.odd y); reflexivity.
Qed.

(** The [bool useTop] passed as an [int] selects the odd rows as missing
    when true and the even rows when false. *)
Lemma is_missing_b2z (b : bool) (y : Z) :
  0 <= y -> is_missing (b2z b) y = if b then Z.odd y else Z.even y.
Proof.
  intros Hy. unfold is_missing, c_true, b2z.
  destruct b; simpl; [apply rem2_odd | apply rem2_even]; exact Hy.
Qed.

Lemma is_missing_negb (b : bool) (y : Z) :
  0 <= y -> is_missing (b2z (negb b)) y = negb (is_missing (b2z b) y).
Proof.
  intros Hy. rewrite !is_missing_b2z by exact Hy.
  destruct b; simpl; rewrite <- Z.negb_odd; [| rewrite negb_involutive]; reflexivity.
Qed.

(* ------------------------------------------------------------------ *)
(** ** Claims on the frame index / parity resolver *)

(** C1: double-rate mode ([mode == 0]).  Output frame [n] requests and
    fetches source frame [floor(n / 2)]; every plane is processed with the
    odd (bottom) rows missing exactly when
    [(n mod 2 == 0) == (tff == 1)], the even rows otherwise; outputs [2k]
    and [2k + 1] share source frame [k] and have opposite missing
    parities. *)
Theorem double_rate_resolve (d : CudaDeintData) (uninit : Z -> list Z) (n : Z) :
  mode d = 0 -> 0 <= n ->
  cudaDeintGetFrame n arInitial d uninit = Requested (n / 2) /\
  cudaDeintGetFrame n arAllFramesReady d uninit
  = Produced (n / 2)
      (process_planes (node_frame (node d) (n / 2)) (b2z (use_top d n)) uninit 0
         (Z.to_nat (numPlanes (vi d)))) /\
  (forall y, 0 <= y ->
     is_missing (b2z (use_top d n)) y
     = if Bool.eqb (n mod 2 =? 0) (tff d =? 1) then Z.odd y else Z.even y) /\
  (forall k y, 0 <= k -> 0 <= y ->
     source_index d (2 * k) = k /\ source_index d (2 * k + 1) = k /\
     is_missing (b2z (use_top d (2 * k + 1))) y
     = negb (is_missing (b2z (use_top d (2 * k))) y)).
Proof.
  intros Hm Hn.
  assert (Hsrc : forall i, 0 <= i -> source_index d i = i / 2).
  { intros i Hi. unfold source_index. rewrite Hm. simpl.
    apply Z.quot_div_nonneg; lia. }
  split; [|split; [|split]].
  - simpl. rewrite Hsrc by exact Hn. reflexivity.
  - simpl. rewrite Hsrc by exact Hn. reflexivity.
  - intros y Hy. rewrite is_missing_b2z by exact Hy.
    unfold use_top. rewrite Hm. simpl.
    rewrite Z.rem_mod_nonneg by lia. reflexivity.
  - intros k y Hk Hy.
    rewrite !Hsrc by lia. split; [|split].
    + Z.to_euclidean_division_equations. lia.
    + Z.to_euclidean_division_equations. lia.
    + assert (E : use_top d (2 * k + 1) = negb (use_top d (2 * k))).
      { assert (R0 : Z.rem (2 * k) 2 = 0)
          by (rewrite Z.rem_mod_nonneg by lia; Z.to_euclidean_division_equations; lia).
        assert (R1 : Z.rem (2 * k + 1) 2 = 1)
          by (rewrite Z.rem_mod_nonneg by lia; Z.to_euclidean_division_equations; lia).
        unfold use_top. rewrite Hm, R0, R1. simpl.
        destruct (tff d =? 1); reflexivity. }
      rewrite E. apply is_missing_negb. exact Hy.
Qed.

(** C3: single-rate mode ([mode == 1]).  Output frame [n] requests and
    fetches source frame [n]; every output frame has the same missing
    parity: the odd rows when [tff == 1] (top first), the even rows
    otherwise. *)
Theorem single_rate_resolve (d : CudaDeintData) (uninit : Z -> list Z) (n : Z) :
  mode d = 1 ->
  cudaDeintGetFrame n arInitial d uninit = Requested n /\
  cudaDeintGetFrame n arAllFramesReady d uninit
  = Produced n
      (process_planes (node_frame (node d) n) (b2z (use_top d n)) uninit 0
         (Z.to_nat (numPlanes (vi d)))) /\
  (forall n', use_top d n' = use_top d n) /\
  (forall y, 0 <= y ->
     is_missing (b2z (use_top d n)) y = if tff d =? 1 then Z.odd y else Z.even y).
Proof.
  intros Hm.
  assert (Hsrc : source_index d n = n).
  { unfold source_index. rewrite Hm. reflexivity. }
  assert (Hut : forall i, use_top d i = (tff d =? 1)).
  { intros i. unfold use_top. rewrite Hm. reflexivity. }
  split; [|split; [|split]].
  - simpl. rewrite Hsrc. reflexivity.
  - simpl. rewrite Hsrc. reflexivity.
  - intros n'. rewrite !Hut. reflexivity.
  - intros y Hy. rewrite Hut. apply is_missing_b2z. exact Hy.
Qed.

(* ------------------------------------------------------------------ *)
(** ** Claims on [cudaDeintCreate] *)

(** A value that fits a signed [bits]-bit integer is left unchanged by the
    conversion. *)
Lemma wrap_signed_small (bits z : Z) :
  0 < bits -> - 2 ^ (bits - 1) <= z < 2 ^ (bits - 1) -> wrap_signed bits z = z.
Proof.
  intros Hb Hz. unfold wrap_signed.
  assert (E : 2 ^ bits = 2 * 2 ^ (bits - 1)).
  { rewrite <- Z.pow_succ_r by lia. f_equal. lia. }
  assert (Hp : 0 < 2 ^ (bits - 1)) by (apply Z.pow_pos_nonneg; lia).
  rewrite E.
  destruct (Z_lt_ge_dec z 0) as [Hneg|Hpos].
  - rewrite <- (Z_mod_plus_full z 1). rewrite Z.mod_small by lia.
    destruct (Z.geb_spec (z + 1 * (2 * 2 ^ (bits - 1))) (2 ^ (bits - 1))); lia.
  - rewrite Z.mod_small by lia.
    destruct (Z.geb_spec z (2 ^ (bits - 1))); lia.
Qed.

(** An upstream clip used in the concrete scenarios below. *)
Definition example_node (frames : Z) (fps : Z) : VSNode :=
  mkNode (mkVideoInfo 3 fps 1 720 480 frames) (fun _ => []).

(** The published descriptor is the instance's descriptor, a copy of the
    upstream one except that, when the stored mode is 0, [fpsNum] (an
    [int64_t]) and [numFrames] (an [int]) are doubled, provided the doubled
    values fit their types.  For any other mode both are unchanged. *)
Theorem create_descriptor (nd : VSNode) (t m : option Z) :
  - 2 ^ 63 <= 2 * fpsNum (node_vi nd) < 2 ^ 63 ->
  - 2 ^ 31 <= 2 * numFrames (node_vi nd) < 2 ^ 31 ->
  exists vi' d,
    cudaDeintCreate (mkMapIn (Some nd) t m) = CreateFilter "CudaDeinterlacer" vi' d /\
    vi d = vi' /\
    numPlanes vi' = numPlanes (node_vi nd) /\ fpsDen vi' = fpsDen (node_vi nd) /\
    vi_width vi' = vi_width (node_vi nd) /\ vi_height vi' = vi_height (node_vi nd) /\
    fpsNum vi' = (if mode d =? 0 then 2 * fpsNum (node_vi nd) else fpsNum (node_vi nd)) /\
    numFrames vi' = (if mode d =? 0 then 2 * numFrames (node_vi nd) else numFrames (node_vi nd)).
Proof.
  intros Hf Hn. unfold cudaDeintCreate. cbn [in_clip in_tff in_mode]. cbv zeta.
  remember (match m with Some v => to_int32 v | None => 0 end) as mv eqn:Emv.
  destruct (mv =? 0) eqn:Hm;
    (eexists _, _; split; [reflexivity|]); cbn [vi mode]; rewrite Hm;
    cbn [numPlanes fpsNum fpsDen vi_width vi_height numFrames].
  - unfold to_int64, to_int32.
    rewrite (wrap_signed_small 64) by (change (64 - 1) with 63; lia).
    rewrite (wrap_signed_small 32) by (change (32 - 1) with 31; lia).
    repeat split; lia.
  - repeat split.
Qed.

Lemma create_descriptor_witness :
  (- 2 ^ 63 <= 2 * fpsNum (node_vi (example_node 100 24)) < 2 ^ 63 /\
   - 2 ^ 31 <= 2 * numFrames (node_vi (example_node 100 24)) < 2 ^ 31) /\
  exists vi' d,
    cudaDeintCreate (mkMapIn (Some (example_node 100 24)) None (Some 0))
      = CreateFilter "CudaDeinterlacer" vi' d /\
    vi d = vi' /\
    numPlanes vi' = 3 /\ fpsDen vi' = 1 /\ vi_width vi' = 720 /\ vi_height vi' = 480 /\
    fpsNum vi' = (if mode d =? 0 then 2 * 24 else 24) /\
    numFrames vi' = (if mode d =? 0 then 2 * 100 else 100).
Proof.
  split; [simpl; lia|].
  exact (create_descriptor (example_node 100 24) None (Some 0)
           ltac:(simpl; lia) ltac:(simpl; lia)).
Defined.

(** C8, the code at a failing input: for a clip of [2 ^ 30] frames in
    double-rate mode (mode absent, so 0), [d->vi.numFrames *= 2] has no
    overflow guard.  The product [2 ^ 31] does not fit the 32-bit [int]
    (undefined behaviour in C++), and the published frame count, modelled
    with the two's-complement wrap of common targets, is [- 2 ^ 31] instead
    of twice the upstream count. *)
Lemma create_double_rate_frame_count_wraps :
  match cudaDeintCreate (mkMapIn (Some (example_node (2 ^ 30) 24)) None None) with
  | CreateFilter _ v d =>
      mode d = 0 /\ numFrames v = - 2 ^ 31 /\ numFrames v <> 2 * 2 ^ 30
  | CreateError _ => False
  end.
Proof. vm_compute. split; [reflexivity|]. split; [reflexivity|]. discriminate. Qed.

(** The configuration the frame callback effectively runs with: mode 0 or 1,
    tff 1 or 0. *)
Definition normalize (d : CudaDeintData) : CudaDeintData :=
  mkData (node d) (vi d) (if tff d =? 1 then 1 else 0) (if mode d =? 0 then 0 else 1).

(** C9 (as the code has it): construction stores [mode] and [tff] without a
    range check, as the supplied [int64] converted to [int] (defaults 0 and 1
    when absent); the frame callback only reads them, and behaves for every
    stored pair exactly as for the normalised pair with [mode] in {0, 1} and
    [tff] in {0, 1}. *)
Theorem create_config_unchecked (nd : VSNode) (t m : option Z) :
  exists vi' d,
    cudaDeintCreate (mkMapIn (Some nd) t m) = CreateFilter "CudaDeinterlacer" vi' d /\
    mode d = match m with Some v => to_int32 v | None => 0 end /\
    tff d = match t with Some v => to_int32 v | None => 1 end /\
    (mode (normalize d) = 0 \/ mode (normalize d) = 1) /\
    (tff (normalize d) = 0 \/ tff (normalize d) = 1) /\
    (forall n ar uninit,
       cudaDeintGetFrame n ar d uninit = cudaDeintGetFrame n ar (normalize d) uninit).
Proof.
  unfold cudaDeintCreate. cbn [in_clip in_tff in_mode]. cbv zeta.
  eexists _, _. split; [reflexivity|]. cbn [mode tff].
  split; [reflexivity|]. split; [reflexivity|].
  set (d := mkData _ _ _ _).
  split; [|split].
  - unfold normalize. cbn [mode]. destruct (mode d =? 0); auto.
  - unfold normalize. cbn [tff]. destruct (tff d =? 1); auto.
  - intros n ar uninit.
    assert (Hs : source_index d n = source_index (normalize d) n).
    { unfold source_index, normalize. cbn [mode].
      destruct (mode d =? 0); reflexivity. }
    assert (Hu : use_top d n = use_top (normalize d) n).
    { unfold use_top, normalize. cbn [mode tff].
      destruct (mode d =? 0); destruct (tff d =? 1); reflexivity. }
    destruct ar; cbn [cudaDeintGetFrame]; rewrite <- ?Hs, <- ?Hu; reflexivity.
Qed.

(** C9 as stated fails: [mode = 2] and [tff = 5] are accepted and stored. *)
Lemma create_accepts_out_of_range_config :
  match cudaDeintCreate (mkMapIn (Some (example_node 100 24)) (Some 5) (Some 2)) with
  | CreateFilter _ _ d =>
      mode d = 2 /\ tff d = 5 /\
      ~ (mode d = 0 \/ mode d = 1) /\ ~ (tff d = 0 \/ tff d = 1)
  | CreateError _ => False
  end.
Proof. vm_compute. repeat split; intros [H | H]; discriminate. Qed.

(** C10: without a [clip], creation fails with the error message and no
    filter (hence no frame processing) exists; with a [clip], a filter
    instance is created over it, with [mode] defaulting to 0 and [tff] to 1
    when absent. *)
Theorem create_clip_required :
  (forall t m, cudaDeintCreate (mkMapIn None t m)
               = CreateError "CudaDeinterlacer: clip is required.") /\
  (forall nd t m, exists vi' d,
     cudaDeintCreate (mkMapIn (Some nd) t m) = CreateFilter "CudaDeinterlacer" vi' d /\
     node d = nd /\
     mode d = match m with Some v => to_int32 v | None => 0 end /\
     tff d = match t with Some v => to_int32 v | None => 1 end).
Proof.
  split.
  - intros t m. reflexivity.
  - intros nd t m. unfold cudaDeintCreate. cbn [in_clip in_tff in_mode]. cbv zeta.
    eexists _, _. split; [reflexivity|]. repeat split.
Qed.

(* ------------------------------------------------------------------ *)
(** ** Concrete instances *)

(** A 4x4 luma plane (stride 4) whose row [r] holds the value [r]. *)
Definition example_plane : list Z :=
  [0; 0; 0; 0; 1; 1; 1; 1; 2; 2; 2; 2; 3; 3; 3; 3].

Definition example_uninit : list Z := repeat 0 16.

(** An instance in the given mode, top field first. *)
Definition example_data (m : Z) : CudaDeintData :=
  mkData (example_node 100 24) (node_vi (example_node 100 24)) 1 m.

Ltac example_bytes :=
  unfold bytes, example_plane; repeat (apply Forall_cons; [lia|]); apply Forall_nil.

Lemma double_rate_resolve_witness :
  mode (example_data 0) = 0 /\ 0 <= 3 /\
  cudaDeintGetFrame 3 arInitial (example_data 0) (fun _ => example_uninit) = Requested (3 / 2).
Proof.
  split; [reflexivity|]. split; [lia|].
  exact (proj1 (double_rate_resolve (example_data 0) (fun _ => example_uninit) 3
                  eq_refl ltac:(lia))).
Defined.

Lemma single_rate_resolve_witness :
  mode (example_data 1) = 1 /\
  cudaDeintGetFrame 3 arInitial (example_data 1) (fun _ => example_uninit) = Requested 3.
Proof.
  split; [reflexivity|].
  exact (proj1 (single_rate_resolve (example_data 1) (fun _ => example_uninit) 3 eq_refl)).
Defined.

(** Row 1 of the example plane is missing when [useTop = 1]. *)
Lemma luma_missing_row_witness :
  is_missing 1 1 = true /\
  exists d', deintKernel_launch example_plane example_uninit 4 4 4 1 0 = Some d' /\
    nth (Z.to_nat (1 * 4 + 1)) d' 0
    = (4 * px example_plane 4 1 (clamp 4 (1 - 1)) + 4 * px example_plane 4 1 (clamp 4 (1 + 1))
       + px example_plane 4 1 (clamp 4 (1 - 3)) + px example_plane 4 1 (clamp 4 (1 + 3))
       + 5) / 10.
Proof.
  split; [reflexivity|].
  apply (luma_missing_row example_plane example_uninit 4 4 4 1 1 1);
    [lia | reflexivity | reflexivity | example_bytes | lia | lia | reflexivity].
Defined.

Lemma present_row_copied_witness :
  is_missing 1 2 = false /\
  exists d', deintKernel_launch example_plane example_uninit 4 4 4 1 0 = Some d' /\
    nth (Z.to_nat (2 * 4 + 3)) d' 0 = px example_plane 4 3 2.
Proof.
  split; [reflexivity|].
  apply (present_row_copied example_plane example_uninit 4 4 4 1 0 3 2);
    [lia | reflexivity | reflexivity | example_bytes | lia | lia | reflexivity].
Defined.

Lemma chroma_missing_row_witness :
  is_missing 0 0 = true /\
  exists d', deintKernel_launch example_plane example_uninit 4 4 4 0 1 = Some d' /\
    nth (Z.to_nat (0 * 4 + 2)) d' 0
    = (px example_plane 4 2 (Z.max (0 - 1) 0)
       + px example_plane 4 2 (Z.min (0 + 1) (4 - 1)) + 1) / 2.
Proof.
  split; [reflexivity|].
  apply (chroma_missing_row example_plane example_uninit 4 4 4 0 1 2 0);
    [lia | reflexivity | reflexivity | example_bytes | discriminate | lia | lia | reflexivity].
Defined.

Lemma kernel_accesses_in_bounds_witness :
  0 <= 4 <= 4 /\
  exists d', deintKernel_launch example_plane example_uninit 4 4 4 1 0 = Some d'.
Proof.
  split; [lia|].
  exact (proj2 (proj2 (kernel_accesses_in_bounds example_plane example_uninit 4 4 4 1 0
                         ltac:(lia) eq_refl eq_refl))).
Defined.

Lemma kernel_arith_bounds_witness :
  bytes example_plane /\
  exists v, pixel_value example_plane 4 4 1 0 1 3 = Some v /\ 0 <= v <= 255 /\ to_uint8 v = v.
Proof.
  split; [example_bytes|].
  exact (proj2 (proj2 (kernel_arith_bounds example_plane 4 4 4 1 0 1 3
                         ltac:(lia) eq_refl ltac:(example_bytes) ltac:(lia) ltac:(lia)))).
Defined.

(* ------------------------------------------------------------------ *)
(** ** Further properties of the host wrapper and the frame callback *)

Lemma firstn_frame (l : list Z) (stride h : Z) :
  Z.of_nat (length l) = stride * h -> firstn (Z.to_nat (stride * h)) l = l.
Proof.
  intros E. rewrite <- E, Nat2Z.id. apply firstn_all.
Qed.

(** [runDeintKernel] on a host plane of [stride * h] bytes: the returned
    plane has [stride * h] bytes, and every padding byte (column [>= w]) is
    the unspecified content of the fresh device buffer, copied back as is:
    the kernel never writes it and it is not taken from the source. *)
Theorem runDeintKernel_padding (sp uninit : list Z) (w h stride useTop isChroma : Z) :
  0 <= w <= stride -> Z.of_nat (length sp) = stride * h ->
  length uninit = length sp ->
  exists dp, runDeintKernel sp w h stride useTop isChroma uninit = Some dp /\
    length dp = length sp /\
    forall o, 0 <= o -> w <= o mod stride ->
      nth (Z.to_nat o) dp 0 = nth (Z.to_nat o) uninit 0.
Proof.
  intros Hw Hlen Hu. unfold runDeintKernel. cbv zeta.
  rewrite (firstn_frame sp stride h Hlen).
  rewrite (firstn_frame uninit stride h) by lia.
  destruct (launch_padding sp w h stride Hw Hlen useTop isChroma uninit Hu)
    as [d' [Hl Hpad]].
  destruct (launch_spec sp w h stride Hw Hlen useTop isChroma uninit Hu)
    as [d'' [Hl' [Hlen' _]]].
  rewrite Hl in Hl'. injection Hl' as <-.
  exists d'. split; [exact Hl|]. split; [lia | exact Hpad].
Qed.

(** The pixels of the plane do not depend on the device memory: two runs of
    [runDeintKernel] on the same host plane, with any contents of the fresh
    device buffer, agree on every pixel [(x, y)] with [x < w], [y < h], and
    that byte is the value the pixel's thread computes from the host
    plane. *)
Theorem runDeintKernel_pixels_deterministic (sp u1 u2 : list Z)
    (w h stride useTop isChroma : Z) :
  0 <= w <= stride -> Z.of_nat (length sp) = stride * h ->
  length u1 = length sp -> length u2 = length sp ->
  exists d1 d2,
    runDeintKernel sp w h stride useTop isChroma u1 = Some d1 /\
    runDeintKernel sp w h stride useTop isChroma u2 = Some d2 /\
    forall x y, 0 <= x < w -> 0 <= y < h ->
      exists v, pixel_value sp h stride useTop isChroma x y = Some v /\
        nth (Z.to_nat (y * stride + x)) d1 0 = to_uint8 v /\
        nth (Z.to_nat (y * stride + x)) d2 0 = to_uint8 v.
Proof.
  intros Hw Hlen H1 H2. unfold runDeintKernel. cbv zeta.
  rewrite (firstn_frame sp stride h Hlen).
  rewrite (firstn_frame u1 stride h) by lia.
  rewrite (firstn_frame u2 stride h) by lia.
  destruct (launch_spec sp w h stride Hw Hlen useTop isChroma u1 H1) as [d1 [E1 [_ P1]]].
  destruct (launch_spec sp w h stride Hw Hlen useTop isChroma u2 H2) as [d2 [E2 [_ P2]]].
  exists d1, d2. split; [exact E1|]. split; [exact E2|].
  intros x y Hx Hy.
  destruct (pixel_value_some sp w h stride Hw Hlen useTop isChroma x y Hx Hy) as [v Hv].
  exists v. split; [exact Hv|]. split; [apply P1 | apply P2]; assumption.
Qed.

(** A plane [runDeintKernel] can be run on: [w <= stride], [stride * h]
    bytes, and a device buffer of the same size. *)
Definition plane_ok (p : Plane) (u : list Z) : Prop :=
  0 <= pl_width p <= pl_stride p /\
  Z.of_nat (length (pl_data p)) = pl_stride p * pl_height p /\
  length u = length (pl_data p).

Lemma runDeintKernel_ok (p : Plane) (u : list Z) (useTop isChroma : Z) :
  plane_ok p u ->
  exists dp, runDeintKernel (pl_data p) (pl_width p) (pl_height p) (pl_stride p)
               useTop isChroma u = Some dp.
Proof.
  intros [Hw [Hlen Hu]]. unfold runDeintKernel. cbv zeta.
  rewrite (firstn_frame (pl_data p) _ _ Hlen).
  rewrite (firstn_frame u (pl_stride p) (pl_height p)) by lia.
  destruct (launch_spec (pl_data p) (pl_width p) (pl_height p) (pl_stride p) Hw Hlen
              useTop isChroma u Hu) as [d' [E _]].
  exists d'. exact E.
Qed.

(** The plane loop from plane [j] for [fuel] planes. *)
Lemma process_planes_spec (src : Frame) (useTop : Z) (uninit : Z -> list Z) :
  (forall i p, nth_error src i = Some p -> plane_ok p (uninit (Z.of_nat i))) ->
  forall fuel j, (j + fuel <= length src)%nat ->
  exists f, process_planes src useTop uninit (Z.of_nat j) fuel = Some f /\
    length f = fuel /\
    forall i, (i < fuel)%nat -> exists p q,
      nth_error src (j + i) = Some p /\ nth_error f i = Some q /\
      runDeintKernel (pl_data p) (pl_width p) (pl_height p) (pl_stride p) useTop
        (b2z (Z.of_nat (j + i) >? 0)) (uninit (Z.of_nat (j + i))) = Some q.
Proof.
  intros Hok fuel. induction fuel as [|f IH]; intros j Hj.
  - exists []. split; [reflexivity|]. split; [reflexivity|]. intros i Hi. lia.
  - destruct (nth_error src j) as [p|] eqn:Hp.
    2:{ apply nth_error_None in Hp. lia. }
    destruct (runDeintKernel_ok p (uninit (Z.of_nat j)) useTop (b2z (Z.of_nat j >? 0))
                (Hok j p Hp)) as [dp Hdp].
    destruct (IH (S j) ltac:(lia)) as [rest [Hr [Hlr Hrest]]].
    exists (dp :: rest).
    split.
    + cbn [process_planes]. rewrite Nat2Z.id, Hp. simpl obind. rewrite Hdp.
      simpl obind. replace (Z.of_nat j + 1) with (Z.of_nat (S j)) by lia.
      rewrite Hr. reflexivity.
    + split; [simpl; lia|].
      intros [|i] Hi.
      * exists p, dp.
        rewrite Nat.add_0_r. repeat split; assumption.
      * destruct (Hrest i ltac:(lia)) as [p' [q' [H1 [H2 H3]]]].
        exists p', q'. replace (j + S i)%nat with (S j + i)%nat by lia.
        split; [exact H1|]. split; [exact H2|]. exact H3.
Qed.

(** The frame callback, once its source frame is ready, processes every
    plane of it (given the format's plane count) and none is skipped: plane
    [i] of the new frame holds [runDeintKernel] of plane [i] of the source
    frame, run as luma ([isChroma = 0]) for plane
    0 and as chroma ([isChroma = 1]) for every later plane, all with the
    same field choice [useTop]. *)
Theorem getFrame_processes_every_plane (d : CudaDeintData) (n : Z)
    (uninit : Z -> list Z) :
  Z.of_nat (length (node_frame (node d) (source_index d n))) = numPlanes (vi d) ->
  (forall i p, nth_error (node_frame (node d) (source_index d n)) i = Some p ->
     plane_ok p (uninit (Z.of_nat i))) ->
  exists f,
    cudaDeintGetFrame n arAllFramesReady d uninit = Produced (source_index d n) (Some f) /\
    length f = length (node_frame (node d) (source_index d n)) /\
    forall i p, nth_error (node_frame (node d) (source_index d n)) i = Some p ->
      exists q, nth_error f i = Some q /\
        runDeintKernel (pl_data p) (pl_width p) (pl_height p) (pl_stride p)
          (b2z (use_top d n)) (if Nat.eqb i 0 then 0 else 1) (uninit (Z.of_nat i))
        = Some q.
Proof.
  intros Hnp Hok.
  set (src := node_frame (node d) (source_index d n)) in *.
  destruct (process_planes_spec src (b2z (use_top d n)) uninit Hok (length src) 0
              ltac:(lia)) as [f [Hf [Hlf Hall]]].
  exists f. split; [|split; [exact Hlf|]].
  - cbn [cudaDeintGetFrame]. fold src. rewrite <- Hnp, Nat2Z.id.
    rewrite <- Hf. reflexivity.
  - intros i p Hp.
    assert (Hi : (i < length src)%nat).
    { apply nth_error_Some. rewrite Hp. discriminate. }
    destruct (Hall i Hi) as [p' [q [Hp' [Hq Hrest]]]].
    simpl in Hp'. rewrite Hp in Hp'. injection Hp' as <-.
    exists q. split; [exact Hq|].
    replace (if Nat.eqb i 0 then 0 else 1) with (b2z (Z.of_nat (0 + i) >? 0)).
    + exact Hrest.
    + simpl. destruct i; reflexivity.
Qed.

(** Every output index the created filter publishes maps to an existing
    upstream frame: for [0 <= n < numFrames] of the published descriptor,
    the callback requests a source index in [[0, numFrames)] of the
    upstream clip, in either mode (given a frame count whose double fits an
    [int]). *)
Theorem created_requests_in_range (nd : VSNode) (t m : option Z) (uninit : Z -> list Z) :
  0 <= numFrames (node_vi nd) -> 2 * numFrames (node_vi nd) < 2 ^ 31 ->
  exists vi' d,
    cudaDeintCreate (mkMapIn (Some nd) t m) = CreateFilter "CudaDeinterlacer" vi' d /\
    forall n, 0 <= n < numFrames vi' ->
      exists s, cudaDeintGetFrame n arInitial d uninit = Requested s /\
        0 <= s < numFrames (node_vi nd).
Proof.
  intros H0 H1. unfold cudaDeintCreate. cbn [in_clip in_tff in_mode]. cbv zeta.
  remember (match m with Some v => to_int32 v | None => 0 end) as mv eqn:Emv.
  destruct (mv =? 0) eqn:Hm;
    (eexists _, _; split; [reflexivity|]); intros n Hn;
    (eexists; split; [reflexivity|]); unfold source_index; cbn [mode]; rewrite Hm.
  - cbn [numFrames] in Hn. unfold to_int32 in Hn.
    rewrite (wrap_signed_small 32) in Hn by (change (32 - 1) with 31; lia).
    rewrite Z.quot_div_nonneg by lia. Z.to_euclidean_division_equations. lia.
  - exact Hn.
Qed.

Lemma nth_repeat_in (c : Z) (m i : nat) : (i < m)%nat -> nth i (repeat c m) 0 = c.
Proof.
  revert i; induction m as [|m IH]; intros [|i] Hi; simpl; try lia; auto.
  apply IH. lia.
Qed.

(** A flat plane stays flat: if every byte of the source plane is [c], every
    pixel of the plane is [c] after the kernel, whatever the field choice and
    the luma / chroma path. *)
Theorem launch_constant_plane (c : Z) (dst : list Z) (w h stride useTop isChroma : Z) :
  0 <= c < 256 -> 0 <= w <= stride -> 0 <= h ->
  length dst = Z.to_nat (stride * h) ->
  exists d', deintKernel_launch (repeat c (Z.to_nat (stride * h))) dst w h stride
               useTop isChroma = Some d' /\
    forall x y, 0 <= x < w -> 0 <= y < h ->
      nth (Z.to_nat (y * stride + x)) d' 0 = c.
Proof.
  intros Hc Hw Hh Hd.
  set (src := repeat c (Z.to_nat (stride * h))).
  assert (Hlen : Z.of_nat (length src) = stride * h).
  { unfold src. rewrite repeat_length. apply Z2Nat.id. nia. }
  assert (Hpx : forall x r, 0 <= x < w -> 0 <= r < h -> px src stride x r = c).
  { intros x r Hx Hr. unfold px, src. apply nth_repeat_in.
    pose proof (offset_in stride h x r ltac:(lia) Hr). lia. }
  destruct (launch_spec src w h stride Hw Hlen useTop isChroma dst
              ltac:(unfold src; rewrite repeat_length; exact Hd)) as [d' [E [_ P]]].
  exists d'. split; [exact E|]. intros x y Hx Hy.
  destruct (is_missing useTop y) eqn:Hm; [destruct (c_true isChroma) eqn:Hch|].
  - rewrite (P x y _ Hx Hy (pixel_value_chroma src w h stride Hw Hlen useTop isChroma x y Hx Hy Hm Hch)).
    rewrite !Hpx by lia. rewrite to_uint8_byte.
    + rewrite Z.quot_div_nonneg by lia. Z.to_euclidean_division_equations. lia.
    + rewrite Z.quot_div_nonneg by lia. Z.to_euclidean_division_equations. lia.
  - rewrite (P x y _ Hx Hy (pixel_value_luma src w h stride Hw Hlen useTop isChroma x y Hx Hy Hm Hch)).
    unfold luma_taps. rewrite !Hpx by (try exact Hx; apply clamp_range; lia).
    rewrite to_uint8_byte.
    + rewrite Z.quot_div_nonneg by lia. Z.to_euclidean_division_equations. lia.
    + rewrite Z.quot_div_nonneg by lia. Z.to_euclidean_division_equations. lia.
  - rewrite (P x y _ Hx Hy (pixel_value_present src w h stride Hw Hlen useTop isChroma x y Hx Hy Hm)).
    rewrite Hpx by lia. apply to_uint8_byte. exact Hc.
Qed.

(** No overshoot: a reconstructed luma pixel lies between the smallest and
    the largest of its four (clamped) tap samples, and a reconstructed
    chroma pixel between its two tap samples. *)
Theorem launch_no_overshoot (src dst : list Z) (w h stride useTop isChroma x y : Z) :
  0 <= w <= stride -> Z.of_nat (length src) = stride * h ->
  length dst = length src -> bytes src ->
  0 <= x < w -> 0 <= y < h -> is_missing useTop y = true ->
  exists d', deintKernel_launch src dst w h stride useTop isChroma = Some d' /\
    (isChroma = 0 ->
       let a := px src stride x (clamp h (y - 3)) in
       let b := px src stride x (clamp h (y - 1)) in
       let c := px src stride x (clamp h (y + 1)) in
       let e := px src stride x (clamp h (y + 3)) in
       Z.min (Z.min a b) (Z.min c e) <= nth (Z.to_nat (y * stride + x)) d' 0
       <= Z.max (Z.max a b) (Z.max c e)) /\
    (isChroma <> 0 ->
       let a := px src stride x (Z.max (y - 1) 0) in
       let b := px src stride x (Z.min (y + 1) (h - 1)) in
       Z.min a b <= nth (Z.to_nat (y * stride + x)) d' 0 <= Z.max a b).
Proof.
  intros Hw Hlen Hd Hb Hx Hy Hm.
  destruct (launch_spec src w h stride Hw Hlen useTop isChroma dst Hd) as [d' [E [_ P]]].
  exists d'. split; [exact E|]. split.
  - intros Hc0. cbv zeta.
    assert (Hc : c_true isChroma = false) by (subst isChroma; reflexivity).
    rewrite (P x y _ Hx Hy (pixel_value_luma src w h stride Hw Hlen useTop isChroma x y Hx Hy Hm Hc)).
    unfold luma_taps. byte_bounds src stride.
    rewrite Z.quot_div_nonneg by lia. rewrite to_uint8_byte.
    + Z.to_euclidean_division_equations. lia.
    + Z.to_euclidean_division_equations. lia.
  - intros Hc0. cbv zeta.
    assert (Hc : c_true isChroma = true)
      by (unfold c_true; apply negb_true_iff, Z.eqb_neq; exact Hc0).
    rewrite (P x y _ Hx Hy (pixel_value_chroma src w h stride Hw Hlen useTop isChroma x y Hx Hy Hm Hc)).
    byte_bounds src stride.
    rewrite Z.quot_div_nonneg by lia. rewrite to_uint8_byte.
    + Z.to_euclidean_division_equations. lia.
    + Z.to_euclidean_division_equations. lia.
Qed.

(** Luma at the frame edges (planes of at least four rows): a missing top
    row 0 becomes [(5 * s0 + 4 * s1 + s3 + 5) / 10] (offsets -3 and -1 both
    reuse row 0) and a missing bottom row [h - 1] becomes
    [(5 * s(h-1) + 4 * s(h-2) + s(h-4) + 5) / 10]. *)
Theorem luma_edge_rows (src dst : list Z) (w h stride useTop x : Z) :
  0 <= w <= stride -> Z.of_nat (length src) = stride * h ->
  length dst = length src -> bytes src -> 4 <= h -> 0 <= x < w ->
  exists d', deintKernel_launch src dst w h stride useTop 0 = Some d' /\
    (is_missing useTop 0 = true ->
       nth (Z.to_nat (0 * stride + x)) d' 0
       = (5 * px src stride x 0 + 4 * px src stride x 1 + px src stride x 3 + 5) / 10) /\
    (is_missing useTop (h - 1) = true ->
       nth (Z.to_nat ((h - 1) * stride + x)) d' 0
       = (5 * px src stride x (h - 1) + 4 * px src stride x (h - 2)
          + px src stride x (h - 4) + 5) / 10).
Proof.
  intros Hw Hlen Hd Hb Hh Hx.
  destruct (launch_spec src w h stride Hw Hlen useTop 0 dst Hd) as [d' [E [_ P]]].
  exists d'. split; [exact E|]. split.
  - intros Hm.
    rewrite (P x 0 _ Hx ltac:(lia) (pixel_value_luma src w h stride Hw Hlen useTop 0 x 0 Hx ltac:(lia) Hm eq_refl)).
    pose proof (luma_taps_range src h stride x 0 Hb) as Hr.
    rewrite Z.quot_div_nonneg by lia.
    unfold luma_taps in *.
    replace (clamp h (0 - 1)) with 0 in * by (unfold clamp; lia).
    replace (clamp h (0 + 1)) with 1 in * by (unfold clamp; lia).
    replace (clamp h (0 - 3)) with 0 in * by (unfold clamp; lia).
    replace (clamp h (0 + 3)) with 3 in * by (unfold clamp; lia).
    rewrite to_uint8_byte.
    + f_equal. lia.
    + Z.to_euclidean_division_equations. lia.
  - intros Hm.
    rewrite (P x (h - 1) _ Hx ltac:(lia) (pixel_value_luma src w h stride Hw Hlen useTop 0 x (h - 1) Hx ltac:(lia) Hm eq_refl)).
    pose proof (luma_taps_range src h stride x (h - 1) Hb) as Hr.
    rewrite Z.quot_div_nonneg by lia.
    unfold luma_taps in *.
    replace (clamp h (h - 1 - 1)) with (h - 2) in * by (unfold clamp; lia).
    replace (clamp h (h - 1 + 1)) with (h - 1) in * by (unfold clamp; lia).
    replace (clamp h (h - 1 - 3)) with (h - 4) in * by (unfold clamp; lia).
    replace (clamp h (h - 1 + 3)) with (h - 1) in * by (unfold clamp; lia).
    rewrite to_uint8_byte.
    + f_equal. lia.
    + Z.to_euclidean_division_equations. lia.
Qed.

Lemma to_int32_eq (v r : Z) :
  0 <= r < 2 ^ 31 -> (to_int32 v = r <-> v mod 2 ^ 32 = r).
Proof.
  intros Hr. unfold to_int32, wrap_signed.
  change (32 - 1) with 31.
  pose proof (Z.mod_pos_bound v (2 ^ 32) ltac:(lia)).
  destruct (Z.geb_spec (v mod 2 ^ 32) (2 ^ 31)); split; intros; lia.
Qed.

(** [mode] and [tff] arrive as 64-bit integers and are truncated to [int]:
    the instance runs double-rate exactly when the supplied [mode] is a
    multiple of [2 ^ 32] (so [mode = 4294967296] selects double-rate), and
    top field first exactly when the supplied [tff] is [1] modulo
    [2 ^ 32]. *)
Theorem create_truncates_arguments (nd : VSNode) (tv mv : Z) :
  exists vi' d,
    cudaDeintCreate (mkMapIn (Some nd) (Some tv) (Some mv))
    = CreateFilter "CudaDeinterlacer" vi' d /\
    (mode d = 0 <-> mv mod 2 ^ 32 = 0) /\
    (tff d = 1 <-> tv mod 2 ^ 32 = 1).
Proof.
  unfold cudaDeintCreate. cbn [in_clip in_tff in_mode]. cbv zeta.
  eexists _, _. split; [reflexivity|]. cbn [mode tff].
  split; apply to_int32_eq; lia.
Qed.

(* ------------------------------------------------------------------ *)
(** ** Concrete instances of the further properties *)

(** A 4x4 chroma plane (stride 4) with rows 10, 20, 40 and 80. *)
Definition example_chroma_plane : list Z :=
  [10; 10; 10; 10; 20; 20; 20; 20; 40; 40; 40; 40; 80; 80; 80; 80].

(** A three-plane 4:4:4 clip: the example plane as luma and the example
    chroma plane as both chroma planes. *)
Definition example_yuv_node : VSNode :=
  mkNode (mkVideoInfo 3 24 1 4 4 100)
    (fun _ => [mkPlane 4 4 4 example_plane; mkPlane 4 4 4 example_chroma_plane;
               mkPlane 4 4 4 example_chroma_plane]).

(** A double-rate, top-field-first instance on it. *)
Definition example_yuv_data : CudaDeintData :=
  mkData example_yuv_node (node_vi example_yuv_node) 1 0.

Lemma runDeintKernel_padding_witness :
  exists dp, runDeintKernel example_plane 3 4 4 1 0 (repeat 7 16) = Some dp /\
    length dp = 16%nat /\
    forall o, 0 <= o -> 3 <= o mod 4 ->
      nth (Z.to_nat o) dp 0 = nth (Z.to_nat o) (repeat 7 16) 0.
Proof.
  exact (runDeintKernel_padding example_plane (repeat 7 16) 3 4 4 1 0
           ltac:(lia) eq_refl eq_refl).
Defined.

Lemma runDeintKernel_pixels_deterministic_witness :
  exists d1 d2,
    runDeintKernel example_plane 4 4 4 1 0 (repeat 7 16) = Some d1 /\
    runDeintKernel example_plane 4 4 4 1 0 example_uninit = Some d2 /\
    forall x y, 0 <= x < 4 -> 0 <= y < 4 ->
      exists v, pixel_value example_plane 4 4 1 0 x y = Some v /\
        nth (Z.to_nat (y * 4 + x)) d1 0 = to_uint8 v /\
        nth (Z.to_nat (y * 4 + x)) d2 0 = to_uint8 v.
Proof.
  exact (runDeintKernel_pixels_deterministic example_plane (repeat 7 16) example_uninit
           4 4 4 1 0 ltac:(lia) eq_refl eq_refl eq_refl).
Defined.

Lemma getFrame_processes_every_plane_witness :
  Z.of_nat (length (node_frame (node example_yuv_data)
                      (source_index example_yuv_data 3))) = numPlanes (vi example_yuv_data) /\
  exists f,
    cudaDeintGetFrame 3 arAllFramesReady example_yuv_data (fun _ => example_uninit)
    = Produced 1 (Some f) /\
    length f = 3%nat /\
    nth_error f 0 = runDeintKernel example_plane 4 4 4 0 0 example_uninit /\
    nth_error f 1 = runDeintKernel example_chroma_plane 4 4 4 0 1 example_uninit /\
    nth_error f 2 = runDeintKernel example_chroma_plane 4 4 4 0 1 example_uninit /\
    nth_error f 1 <> runDeintKernel example_chroma_plane 4 4 4 0 0 example_uninit.
Proof.
  split; [reflexivity|].
  destruct (getFrame_processes_every_plane example_yuv_data 3 (fun _ => example_uninit)
              eq_refl) as [f [Hf [Hl Hall]]].
  - intros [|[|[|i]]] p Hp; simpl in Hp; try (destruct i; discriminate Hp);
      injection Hp as <-; unfold plane_ok; simpl; (split; [lia|]); split; reflexivity.
  - destruct (Hall 0%nat (mkPlane 4 4 4 example_plane) eq_refl) as [q0 [Hq0 Hr0]].
    destruct (Hall 1%nat (mkPlane 4 4 4 example_chroma_plane) eq_refl) as [q1 [Hq1 Hr1]].
    destruct (Hall 2%nat (mkPlane 4 4 4 example_chroma_plane) eq_refl) as [q2 [Hq2 Hr2]].
    exists f. split; [exact Hf|]. split; [exact Hl|].
    rewrite Hq0, Hq1, Hq2, <- Hr0, <- Hr1, <- Hr2.
    split; [reflexivity|]. split; [reflexivity|]. split; [reflexivity|].
    vm_compute. discriminate.
Defined.

Lemma created_requests_in_range_witness :
  0 <= numFrames (node_vi (example_node 100 24)) /\
  exists vi' d,
    cudaDeintCreate (mkMapIn (Some (example_node 100 24)) None None)
    = CreateFilter "CudaDeinterlacer" vi' d /\
    forall n, 0 <= n < numFrames vi' ->
      exists s, cudaDeintGetFrame n arInitial d (fun _ => example_uninit) = Requested s /\
        0 <= s < numFrames (node_vi (example_node 100 24)).
Proof.
  split; [simpl; lia|].
  exact (created_requests_in_range (example_node 100 24) None None (fun _ => example_uninit)
           ltac:(simpl; lia) ltac:(simpl; lia)).
Defined.

Lemma launch_constant_plane_witness :
  exists d', deintKernel_launch (repeat 9 (Z.to_nat (4 * 4))) example_uninit 4 4 4 1 0 = Some d' /\
    forall x y, 0 <= x < 4 -> 0 <= y < 4 -> nth (Z.to_nat (y * 4 + x)) d' 0 = 9.
Proof.
  exact (launch_constant_plane 9 example_uninit 4 4 4 1 0
           ltac:(lia) ltac:(lia) ltac:(lia) eq_refl).
Defined.

Lemma launch_no_overshoot_witness :
  is_missing 1 1 = true /\
  exists d', deintKernel_launch example_plane example_uninit 4 4 4 1 0 = Some d' /\
    (0 = 0 ->
       let a := px example_plane 4 2 (clamp 4 (1 - 3)) in
       let b := px example_plane 4 2 (clamp 4 (1 - 1)) in
       let c := px example_plane 4 2 (clamp 4 (1 + 1)) in
       let e := px example_plane 4 2 (clamp 4 (1 + 3)) in
       Z.min (Z.min a b) (Z.min c e) <= nth (Z.to_nat (1 * 4 + 2)) d' 0
       <= Z.max (Z.max a b) (Z.max c e)) /\
    (0 <> 0 ->
       let a := px example_plane 4 2 (Z.max (1 - 1) 0) in
       let b := px example_plane 4 2 (Z.min (1 + 1) (4 - 1)) in
       Z.min a b <= nth (Z.to_nat (1 * 4 + 2)) d' 0 <= Z.max a b).
Proof.
  split; [reflexivity|].
  apply (launch_no_overshoot example_plane example_uninit 4 4 4 1 0 2 1);
    [lia | reflexivity | reflexivity | example_bytes | lia | lia | reflexivity].
Defined.

Lemma luma_edge_rows_witness :
  exists d', deintKernel_launch example_plane example_uninit 4 4 4 0 0 = Some d' /\
    (is_missing 0 0 = true ->
       nth (Z.to_nat (0 * 4 + 1)) d' 0
       = (5 * px example_plane 4 1 0 + 4 * px example_plane 4 1 1
          + px example_plane 4 1 3 + 5) / 10) /\
    (is_missing 0 (4 - 1) = true ->
       nth (Z.to_nat ((4 - 1) * 4 + 1)) d' 0
       = (5 * px example_plane 4 1 (4 - 1) + 4 * px example_plane 4 1 (4 - 2)
          + px example_plane 4 1 (4 - 4) + 5) / 10).
Proof.
  apply (luma_edge_rows example_plane example_uninit 4 4 4 0 1);
    [lia | reflexivity | reflexivity | example_bytes | lia | lia].
Defined.
